(** * SVG.py: injecting content into existing SVG documents

    A shallow embedding of the module [SVG.py]: the classes [ExistingDoc],
    [SVGDocInScale], [NumDocTrafo] and [ScaledInjectionPoint], together with
    the part of Python and of [xml.etree.ElementTree] their methods rely on.

    Conventions of the embedding.
    - A Python call either returns a value or raises: [pyres A].
    - Numbers are exact rationals ([Qc]): the arithmetic of the module is
      the one Python performs on [fractions.Fraction] operands; binary
      floating point rounding is not modelled.
    - Strings are sequences of code points below 256.
    - The parsed document is the mutable store.  An element of the document
      is referred to by its path from the root (child indices), so that all
      holders of a reference see the same children.
    - A name that is not local to a method is resolved in the globals of
      the module, then in the builtins.
    - Reading and writing files ([ExistingDoc.__init__], [save]) is left
      out: a document is given as its parsed tree. *)

From Stdlib Require Import Ascii String QArith Qcanon.
From stdpp Require Import base option list strings gmap numbers.

Set Warnings "-register-all".
Open Scope string_scope.
Open Scope list_scope.

(** ** Element trees *)

(** [xml.etree.ElementTree.Element]: a tag, an attribute dictionary and an
    ordered list of children.  (The [text] and [tail] of an element are never
    read or written by the module.) *)
Inductive Element : Type :=
  Elem { tag : string;
         attrib : list (string * string);
         children : list Element }.

(** [Element.get(key, None)]. *)
Fixpoint assoc {A} (key : string) (d : list (string * A)) : option A :=
  match d with
  | [] => None
  | (k, v) :: d' => if decide (k = key) then Some v else assoc key d'
  end.

Definition get (e : Element) (key : string) : option string :=
  assoc key (attrib e).

(** A reference to an element of the document: the child indices leading to
    it from the root. *)
Definition ref := list nat.

Fixpoint lookup_at (r : ref) (e : Element) : option Element :=
  match r with
  | [] => Some e
  | i :: r' => children e !! i ≫= lookup_at r'
  end.

Fixpoint alter_at (f : Element → Element) (r : ref) (e : Element) : Element :=
  match r with
  | [] => f e
  | i :: r' => Elem (tag e) (attrib e) (alter (alter_at f r') i (children e))
  end.

(** The effect of [Element.append(subelement)] on the element itself. *)
Definition add_child (sub : Element) (e : Element) : Element :=
  Elem (tag e) (attrib e) (children e ++ [sub]).

(** ** Python values and exceptions *)

Inductive pyobj : Type :=
  | PyNone
  | PyStr (s : string)
  | PyDict (d : list (string * string))
  | PyElement (e : Element)
  | PyModule (name : string)
  | PyClass (name : string) (attrs : list (string * pyobj))
  | PyBuiltin (name : string).

Inductive exn : Type :=
  | ParseError (fmt : string) (arg : pyobj)  (* class ParseError of SVG.py *)
  | ET_ParseError                            (* xml.etree.ElementTree.ParseError *)
  | NameError (name : string)
  | AttributeError (attr : string)
  | TypeError
  | ValueError
  | ZeroDivisionError
  | SyntaxError.

(** [type(e).__name__]. *)
Definition exn_name (e : exn) : string :=
  match e with
  | ParseError _ _ => "ParseError"
  | ET_ParseError => "ParseError"
  | NameError _ => "NameError"
  | AttributeError _ => "AttributeError"
  | TypeError => "TypeError"
  | ValueError => "ValueError"
  | ZeroDivisionError => "ZeroDivisionError"
  | SyntaxError => "SyntaxError"
  end.

Inductive pyres (A : Type) : Type :=
  | Ret (a : A)
  | Raise (e : exn).
Arguments Ret {A} a.
Arguments Raise {A} e.

#[global] Instance pyres_ret : MRet pyres := @Ret.
#[global] Instance pyres_bind : MBind pyres := λ A B f m,
  match m with
  | Ret a => f a
  | Raise e => Raise e
  end.

#[global] Instance pyres_fmap : FMap pyres := λ A B f m,
  match m with
  | Ret a => Ret (f a)
  | Raise e => Raise e
  end.

Definition raises {A} (m : pyres A) (name : string) : Prop :=
  ∃ e, m = Raise e ∧ exn_name e = name.

(** Statements that mutate the document: state passing, the document being
    kept as it is when an exception propagates. *)
Definition stmt (A : Type) : Type := Element → pyres A * Element.

#[global] Instance stmt_ret : MRet stmt := λ A a doc, (Ret a, doc).
#[global] Instance stmt_bind : MBind stmt := λ A B f m doc,
  match m doc with
  | (Ret a, doc') => f a doc'
  | (Raise e, doc') => (Raise e, doc')
  end.

Definition lift {A} (m : pyres A) : stmt A := λ doc, (m, doc).

(** [try: body except (ET.ParseError, TypeError): handler]. *)
Definition try_except {A} (body : stmt A) (caught : exn → bool)
    (handler : stmt A) : stmt A := λ doc,
  match body doc with
  | (Raise e, doc') => if caught e then handler doc' else (Raise e, doc')
  | r => r
  end.

(** ** Name resolution *)

(** The names bound at module level once [SVG.py] has been imported: the
    attributes every module has, the two imports and the five classes.
    [_NS] is an attribute of the class [ExistingDoc], not a module-level
    name. *)
Definition svg_uri : string := "http://www.w3.org/2000/svg".

Definition ExistingDoc_attrs : list (string * pyobj) :=
  [("_NS", PyDict [("svg", svg_uri)])].

Definition module_globals : list (string * pyobj) :=
  [("__name__", PyStr "SVG");
   ("__doc__", PyStr " Inject SVG content into existing SVG files.");
   ("__package__", PyStr "");
   ("__loader__", PyBuiltin "__loader__");
   ("__spec__", PyBuiltin "__spec__");
   ("__file__", PyStr "SVG.py");
   ("__cached__", PyBuiltin "__cached__");
   ("__builtins__", PyModule "builtins");
   ("re", PyModule "re");
   ("ET", PyModule "xml.etree.ElementTree");
   ("ParseError", PyClass "ParseError" []);
   ("ExistingDoc", PyClass "ExistingDoc" ExistingDoc_attrs);
   ("SVGDocInScale", PyClass "SVGDocInScale" ExistingDoc_attrs);
   ("NumDocTrafo", PyClass "NumDocTrafo" []);
   ("ScaledInjectionPoint", PyClass "ScaledInjectionPoint" [])].

(** The names of the [builtins] module. *)
Definition builtin_names : list string :=
  ["ArithmeticError"; "AssertionError"; "AttributeError"; "BaseException";
   "BaseExceptionGroup"; "BlockingIOError"; "BrokenPipeError"; "BufferError";
   "BytesWarning"; "ChildProcessError"; "ConnectionAbortedError";
   "ConnectionError"; "ConnectionRefusedError"; "ConnectionResetError";
   "DeprecationWarning"; "EOFError"; "Ellipsis"; "EncodingWarning";
   "EnvironmentError"; "Exception"; "ExceptionGroup"; "False";
   "FileExistsError"; "FileNotFoundError"; "FloatingPointError";
   "FutureWarning"; "GeneratorExit"; "IOError"; "ImportError"; "ImportWarning";
   "IndentationError"; "IndexError"; "InterruptedError"; "IsADirectoryError";
   "KeyError"; "KeyboardInterrupt"; "LookupError"; "MemoryError";
   "ModuleNotFoundError"; "NameError"; "None"; "NotADirectoryError";
   "NotImplemented"; "NotImplementedError"; "OSError"; "OverflowError";
   "PendingDeprecationWarning"; "PermissionError"; "ProcessLookupError";
   "RecursionError"; "ReferenceError"; "ResourceWarning"; "RuntimeError";
   "RuntimeWarning"; "StopAsyncIteration"; "StopIteration"; "SyntaxError";
   "SyntaxWarning"; "SystemError"; "SystemExit"; "TabError"; "TimeoutError";
   "True"; "TypeError"; "UnboundLocalError"; "UnicodeDecodeError";
   "UnicodeEncodeError"; "UnicodeError"; "UnicodeTranslateError";
   "UnicodeWarning"; "UserWarning"; "ValueError"; "Warning";
   "ZeroDivisionError"; "__build_class__"; "__debug__"; "__import__"; "abs";
   "aiter"; "all"; "anext"; "any"; "ascii"; "bin"; "bool"; "breakpoint";
   "bytearray"; "bytes"; "callable"; "chr"; "classmethod"; "compile";
   "complex"; "copyright"; "credits"; "delattr"; "dict"; "dir"; "divmod";
   "enumerate"; "eval"; "exec"; "exit"; "filter"; "float"; "format";
   "frozenset"; "getattr"; "globals"; "hasattr"; "hash"; "help"; "hex"; "id";
   "input"; "int"; "isinstance"; "issubclass"; "iter"; "len"; "license";
   "list"; "locals"; "map"; "max"; "memoryview"; "min"; "next"; "object";
   "oct"; "open"; "ord"; "pow"; "print"; "property"; "quit"; "range"; "repr";
   "reversed"; "round"; "set"; "setattr"; "slice"; "sorted"; "staticmethod";
   "str"; "sum"; "super"; "tuple"; "type"; "vars"; "zip"].

Definition builtins : list (string * pyobj) :=
  (λ name, (name, PyBuiltin name)) <$> builtin_names.

(** A name that is not local to the function is looked up in the module's
    globals, then in the builtins; failing both, [NameError]. *)
Definition LOAD_GLOBAL (name : string) : pyres pyobj :=
  match assoc name module_globals with
  | Some v => Ret v
  | None =>
      match assoc name builtins with
      | Some v => Ret v
      | None => Raise (NameError name)
      end
  end.

(** [obj.name] for a class object. *)
Definition getattr (obj : pyobj) (name : string) : pyres pyobj :=
  match obj with
  | PyClass _ attrs =>
      match assoc name attrs with
      | Some v => Ret v
      | None => Raise (AttributeError name)
      end
  | _ => Raise (AttributeError name)
  end.

(** ** The library the module calls *)

(** What the module takes from Python and [xml.etree.ElementTree] without
    defining it:
    - [py_float s] is [float(s)] for a string, [None] standing for its
      [ValueError];
    - [ET_fromstring] is [ET.fromstring], which parses markup into a fresh
      element, raises [ET.ParseError] on malformed markup and [TypeError] on
      an argument it cannot read;
    - [ET_iterfind_other] is the answer of [Element.iterfind] to the paths
      and namespace arguments outside the fragment modelled below. *)
Record PyLib : Type := {
  py_float : string → option Qc;
  ET_fromstring : pyobj → pyres Element;
  ET_iterfind_other : Element → string → pyobj → pyres (list ref) }.

(** *** Paths of [xml.etree.ElementPath]

    The module uses two paths: [prefix:tag[@key]] and
    [prefix:tag[@key='value']].  Both select, among the children of the
    element [find] is called on, those with the given qualified tag that
    carry the attribute, respectively carry it with the given value.  The
    library documents that the value cannot contain quotes.  The prefix is
    looked up in the namespace dictionary, an unknown prefix being a
    [SyntaxError]; the empty and the wildcard namespace are left to
    [ET_iterfind_other], as is every path of another shape. *)
Definition name_char (c : ascii) : bool :=
  let n := nat_of_ascii c in
  (Nat.leb 48 n && Nat.leb n 57) || (Nat.leb 65 n && Nat.leb n 90)
  || (Nat.leb 97 n && Nat.leb n 122) || Nat.eqb n 95 || Nat.eqb n 45.

Definition quote : ascii := "'"%char.

Fixpoint span (p : ascii → bool) (s : string) : string * string :=
  match s with
  | EmptyString => (EmptyString, EmptyString)
  | String c s' =>
      if p c then let '(a, b) := span p s' in (String c a, b)
      else (EmptyString, s)
  end.

Fixpoint strip_prefix (p s : string) : option string :=
  match p, s with
  | EmptyString, _ => Some s
  | String a p', String b s' =>
      if decide (a = b) then strip_prefix p' s' else None
  | String _ _, EmptyString => None
  end.

Inductive predicate : Type :=
  | HasAttr (key : string)
  | AttrEq (key value : string).

Record step : Type := {
  step_prefix : string;
  step_local : string;
  step_pred : predicate }.

Definition parse_predicate (key rest : string) : option predicate :=
  if decide (rest = "]") then Some (HasAttr key)
  else
    r ← strip_prefix "='" rest;
    let '(value, r') := span (λ c, negb (bool_decide (c = quote))) r in
    if decide (r' = "']") then Some (AttrEq key value) else None.

Definition parse_path (path : string) : option step :=
  let '(pfx, r1) := span name_char path in
  r1 ← strip_prefix ":" r1;
  let '(loc, r2) := span name_char r1 in
  r2 ← strip_prefix "[@" r2;
  let '(key, r3) := span name_char r2 in
  if decide (pfx = "" ∨ loc = "" ∨ key = "") then None
  else
    p ← parse_predicate key r3;
    Some {| step_prefix := pfx; step_local := loc; step_pred := p |}.

Definition holds (p : predicate) (e : Element) : bool :=
  match p with
  | HasAttr key => bool_decide (is_Some (get e key))
  | AttrEq key value => bool_decide (get e key = Some value)
  end.

(** The children of an element selected by a tag and a predicate, in
    document order; [i] is the index of the first element of [l]. *)
Fixpoint select (qtag : string) (p : predicate) (i : nat) (l : list Element)
    : list ref :=
  match l with
  | [] => []
  | e :: l' =>
      if bool_decide (tag e = qtag) && holds p e
      then [i] :: select qtag p (S i) l'
      else select qtag p (S i) l'
  end.

Section SVG.
Context (L : PyLib).

Definition ET_iterfind (elem : Element) (path : string) (namespaces : pyobj)
    : pyres (list ref) :=
  match parse_path path, namespaces with
  | Some st, PyDict d =>
      match assoc (step_prefix st) d with
      | Some uri =>
          if decide (uri = "" ∨ uri = "*")
          then ET_iterfind_other L elem path namespaces
          else Ret (select ("{" +:+ uri +:+ "}" +:+ step_local st)
                      (step_pred st) 0 (children elem))
      | None => Raise SyntaxError
      end
  | _, _ => ET_iterfind_other L elem path namespaces
  end.

(** [Element.find]: the first match, or [None]. *)
Definition ET_find (elem : Element) (path : string) (namespaces : pyobj)
    : pyres (option ref) :=
  head <$> ET_iterfind elem path namespaces.

(** [Element.findall]: all matches, in document order. *)
Definition ET_findall (elem : Element) (path : string) (namespaces : pyobj)
    : pyres (list ref) :=
  ET_iterfind elem path namespaces.

(** ** class ExistingDoc *)

(** An opened document: [self.root], the root element of the parsed tree. *)
Record ExistingDoc : Type := { root : Element }.

(** The separators of the pattern [([^\s,]+)+]: the comma and the characters
    [\s] matches, which below 256 are 9 to 13, 28 to 32, 133 and 160. *)
Definition is_sep (c : ascii) : bool :=
  let n := nat_of_ascii c in
  Nat.eqb n 44 || (Nat.leb 9 n && Nat.leb n 13) || (Nat.leb 28 n && Nat.leb n 32)
  || Nat.eqb n 133 || Nat.eqb n 160.

(** [re.findall("([^\s,]+)+", s)]: the maximal runs of characters that are
    not separators, from left to right; [cur] is the run being read. *)
Fixpoint runs (cur : string) (s : string) : list string :=
  match s with
  | EmptyString => if decide (cur = "") then [] else [cur]
  | String c s' =>
      if is_sep c
      then (if decide (cur = "") then runs "" s' else cur :: runs "" s')
      else runs (cur +:+ String c "") s'
  end.

Definition re_findall_coords (s : string) : list string := runs "" s.

(** [float(s)]. *)
Definition float (s : string) : pyres Qc :=
  match py_float L s with
  | Some q => Ret q
  | None => Raise ValueError
  end.

(** Attribute values are strings, so that the last branch of the source
    ([vbox] neither a string nor [None]) has no counterpart here. *)
Definition viewBox (self : ExistingDoc) : pyres (option (list Qc)) :=
  let vbox := get (root self) "viewBox" in
  match vbox with
  | Some vbox =>
      let coords := re_findall_coords vbox in
      if decide (length coords ≠ 4)
      then Raise (ParseError "viewBox coordinates not valid: %s" (PyStr vbox))
      else Some <$> mapM float coords
  | None => Ret None
  end.

Definition getLayer (self : ExistingDoc) (id : string) : pyres (option ref) :=
  let elementXpath := "svg:g[@id='" +:+ id +:+ "']" in
  cls ← LOAD_GLOBAL "ExistingDoc";
  ns ← getattr cls "_NS";
  ET_find (root self) elementXpath ns.

(** The body of the [for] loop of [getLayersByID_dict], over the list
    [findall] has returned. *)
Fixpoint getLayersByID_loop (self : ExistingDoc) (ids : gset string)
    (els : list ref) (result : gmap string ref) : pyres (gmap string ref) :=
  match els with
  | [] => Ret result
  | el :: els' =>
      match lookup_at el (root self) ≫= (λ e, get e "id") with
      | Some id =>
          if decide (id ∈ ids) then
            if decide (is_Some (result !! id))
            then Raise (ParseError "Duplicate element with id %s" (PyStr id))
            else getLayersByID_loop self ids els' (<[id := el]> result)
          else getLayersByID_loop self ids els' result
      | None => getLayersByID_loop self ids els' result
      end
  end.

Definition getLayersByID_dict (self : ExistingDoc) (ids : gset string)
    : pyres (gmap string ref) :=
  let elementXpath := "svg:g[@id]" in
  let result : gmap string ref := ∅ in
  ns ← LOAD_GLOBAL "_NS";
  els ← ET_findall (root self) elementXpath ns;
  getLayersByID_loop self ids els result.

(** ** class NumDocTrafo *)

(** A delta function given as keyword argument, or [None]. *)
Definition deltaFn : Type := option (Qc → Qc → Qc).

Record NumDocTrafo : Type := {
  h1 : Qc; h2 : Qc; v1 : Qc; v2 : Qc;
  x1 : Qc; y1 : Qc;
  HXscale : Qc; VYscale : Qc;
  h2x : Qc → Qc;
  v2y : Qc → Qc }.

(** [a / b] on numbers. *)
Definition truediv (a b : Qc) : pyres Qc :=
  if decide (b = 0%Qc) then Raise ZeroDivisionError else Ret (a / b)%Qc.

(** [a, b, c, d = viewBox]. *)
Definition unpack4 (viewBox : option (list Qc)) : pyres (Qc * Qc * Qc * Qc) :=
  match viewBox with
  | None => Raise TypeError
  | Some [a; b; c; d] => Ret (a, b, c, d)
  | Some _ => Raise ValueError
  end.

(** [NumDocTrafo.__init__].  As in the source, [height] is unpacked and both
    scale factors are quotients of [width]. *)
Definition NumDocTrafo_init (viewBox : option (list Qc))
    (hrange vrange : Qc * Qc) (deltaFnH deltaFnV : deltaFn)
    : pyres NumDocTrafo :=
  let '(h1, h2) := hrange in
  let '(v1, v2) := vrange in
  '(x1, y1, width, height) ← unpack4 viewBox;
  '(HXscale, h2x) ←
    match deltaFnH with
    | Some D =>
        sc ← truediv width (D h1 h2);
        Ret (sc, λ h, D h1 h * sc + x1)%Qc
    | None =>
        sc ← truediv width (h2 - h1)%Qc;
        Ret (sc, λ h, (h - h1) * sc + x1)%Qc
    end;
  '(VYscale, v2y) ←
    match deltaFnV with
    | Some D =>
        sc ← truediv width (D v1 v2);
        Ret (sc, λ v, D v1 v * sc + y1)%Qc
    | None =>
        sc ← truediv width (v2 - v1)%Qc;
        Ret (sc, λ v, (v - v1) * sc + y1)%Qc
    end;
  Ret {| h1 := h1; h2 := h2; v1 := v1; v2 := v2; x1 := x1; y1 := y1;
         HXscale := HXscale; VYscale := VYscale; h2x := h2x; v2y := v2y |}.

(** ** class ScaledInjectionPoint(NumDocTrafo) *)

(** The keyword arguments [**deltaFnHV]. *)
Record deltaFnHV : Type := { deltaFnH : deltaFn; deltaFnV : deltaFn }.

(** The target is a reference to an element of the document, or [None]. *)
Record ScaledInjectionPoint : Type := {
  trafo :> NumDocTrafo;
  target : option ref }.

Definition ScaledInjectionPoint_init (target_element : option ref)
    (viewBox : option (list Qc)) (hrange vrange : Qc * Qc) (kw : deltaFnHV)
    : pyres ScaledInjectionPoint :=
  t ← NumDocTrafo_init viewBox hrange vrange (deltaFnH kw) (deltaFnV kw);
  Ret {| trafo := t; target := target_element |}.

(** [isinstance(content, ET.Element)]. *)
Definition isinstance_Element (content : pyobj) : bool :=
  match content with
  | PyElement _ => true
  | _ => false
  end.

(** [Element.append(subelement)] on the element of the document at [t]. *)
Definition Element_append (t : ref) (subelement : pyobj) : stmt () := λ doc,
  match subelement with
  | PyElement e => (Ret (), alter_at (add_child e) t doc)
  | _ => (Raise TypeError, doc)
  end.

(** The attribute lookup [self.target.append]. *)
Definition target_append (target : option ref) : pyres (pyobj → stmt ()) :=
  match target with
  | Some t => Ret (Element_append t)
  | None => Raise (AttributeError "append")
  end.

Definition inject (self : ScaledInjectionPoint) (content : pyobj) : stmt () :=
  if isinstance_Element content then
    append ← lift (target_append (target self));
    inj ← lift (LOAD_GLOBAL "inj");
    append inj
  else
    try_except
      (append ← lift (target_append (target self));
       node ← lift (ET_fromstring L content);
       append (PyElement node))
      (λ e, match e with ET_ParseError | TypeError => true | _ => false end)
      (lift (Raise (ParseError "Invalid type or syntax for content %s"
                      content))).

(** ** class SVGDocInScale(ExistingDoc) *)

Record SVGDocInScale : Type := {
  doc :> ExistingDoc;
  _deltaFnHV : deltaFnHV }.

Definition getLayerInjector (self : SVGDocInScale) (id : string)
    (hrange vrange : Qc * Qc) : pyres ScaledInjectionPoint :=
  layer ← getLayer self id;
  box ← viewBox self;
  ScaledInjectionPoint_init layer box hrange vrange (_deltaFnHV self).

End SVG.

(** ** A library instance for evaluating the module on concrete inputs *)

(** Decimal literals: an optional sign, digits, and an optional fraction. *)
Definition is_digit (c : ascii) : bool :=
  let n := nat_of_ascii c in Nat.leb 48 n && Nat.leb n 57.

Fixpoint decimal (acc : Z) (s : string) : Z :=
  match s with
  | EmptyString => acc
  | String c s' => decimal (10 * acc + Z.of_nat (nat_of_ascii c - 48)) s'
  end.

Definition unsigned_literal (s : string) : option Qc :=
  let '(ip, r) := span is_digit s in
  if decide (ip = "") then None
  else if decide (r = "") then Some (Qc_of_Z (decimal 0 ip))
  else
    fp ← strip_prefix "." r;
    let '(fd, r') := span is_digit fp in
    if decide (r' = "") then
      Some (Qc_of_Z (decimal (decimal 0 ip) fd)
            / Qc_of_Z (10 ^ Z.of_nat (String.length fd)))%Qc
    else None.

Definition sample_float (s : string) : option Qc :=
  match strip_prefix "-" s with
  | Some s' => Qcopp <$> unsigned_literal s'
  | None => unsigned_literal s
  end.

(** Markup: an empty element without attributes, [<name/>]. *)
Definition sample_fromstring (text : pyobj) : pyres Element :=
  match text with
  | PyStr s =>
      match strip_prefix "<" s with
      | Some r =>
          let '(name, r') := span name_char r in
          if decide (name ≠ "" ∧ r' = "/>") then Ret (Elem name [] [])
          else Raise ET_ParseError
      | None => Raise ET_ParseError
      end
  | _ => Raise TypeError
  end.

Definition sample_lib : PyLib :=
  {| py_float := sample_float;
     ET_fromstring := sample_fromstring;
     ET_iterfind_other := λ _ _ _, Raise SyntaxError |}.

(** Documents and elements used in the examples. *)
Definition svg_tag (name : string) : string := "{" +:+ svg_uri +:+ "}" +:+ name.

Definition g (id : string) (cs : list Element) : Element :=
  Elem (svg_tag "g") [("id", id)] cs.

Definition circle : Element := Elem "circle" [] [].
Definition rect : Element := Elem (svg_tag "rect") [] [].

(** [<svg viewBox="0 0 100 50"><g id="bg"><rect/></g><g id="plot"/></svg>] *)
Definition plot_doc : ExistingDoc :=
  {| root := Elem (svg_tag "svg") [("viewBox", "0 0 100 50")]
               [g "bg" [rect]; g "plot" []] |}.

(** The same document without the [viewBox] attribute. *)
Definition nobox_doc : ExistingDoc :=
  {| root := Elem (svg_tag "svg") [] [g "bg" [rect]; g "plot" []] |}.

(** A document whose last coordinate is not a number. *)
Definition badbox_doc : ExistingDoc :=
  {| root := Elem (svg_tag "svg") [("viewBox", "0 0 100 abc")] [g "plot" []] |}.

(** A group nested in a group, and two groups with the same id. *)
Definition nested_doc : ExistingDoc :=
  {| root := Elem (svg_tag "svg") [("viewBox", "0 0 100 50")]
               [g "outer" [g "inner" []]] |}.

Definition duplicate_doc : ExistingDoc :=
  {| root := Elem (svg_tag "svg") [("viewBox", "0 0 100 50")]
               [g "a" []; g "a" [rect]] |}.

Definition default_deltas : deltaFnHV := {| deltaFnH := None; deltaFnV := None |}.

Definition plot_scaled : SVGDocInScale :=
  {| doc := plot_doc; _deltaFnHV := default_deltas |}.


(** The viewport box [0 0 100 50] and the maps over the world ranges
    [(0, 10)] and [(0, 5)], as [NumDocTrafo.__init__] builds them. *)
Definition plot_box : list Qc := Qc_of_Z <$> [0; 0; 100; 50]%Z.

Definition plot_trafo : NumDocTrafo :=
  {| h1 := Qc_of_Z 0; h2 := Qc_of_Z 10; v1 := Qc_of_Z 0; v2 := Qc_of_Z 5;
     x1 := Qc_of_Z 0; y1 := Qc_of_Z 0;
     HXscale := Qc_of_Z 10; VYscale := Qc_of_Z 20;
     h2x := λ h, ((h - Qc_of_Z 0) * Qc_of_Z 10 + Qc_of_Z 0)%Qc;
     v2y := λ v, ((v - Qc_of_Z 0) * Qc_of_Z 20 + Qc_of_Z 0)%Qc |}.

(** Injection points into the layers [plot] (no child) and [bg] (one child)
    of [plot_doc], and one whose layer was not found. *)
Definition plot_point : ScaledInjectionPoint :=
  {| trafo := plot_trafo; target := Some [1] |}.

Definition bg_point : ScaledInjectionPoint :=
  {| trafo := plot_trafo; target := Some [0] |}.

Definition lost_point : ScaledInjectionPoint :=
  {| trafo := plot_trafo; target := None |}.

(** ** Notions used in the statements *)


(** An identifier without the quote character, as the path
    [svg:g[@id='...']] requires of the value it compares with. *)
Fixpoint quote_free (s : string) : bool :=
  match s with
  | EmptyString => true
  | String c s' => negb (bool_decide (c = quote)) && quote_free s'
  end.

(** A group of the SVG namespace carrying the given id. *)
Definition is_layer (id : string) (e : Element) : Prop :=
  tag e = svg_tag "g" ∧ get e "id" = Some id.

#[global] Instance is_layer_dec id e : Decision (is_layer id e).
Proof. unfold is_layer. apply _. Defined.

(** The proper descendants of an element in document order, each with its
    reference relative to the element. *)
Fixpoint descendants (e : Element) : list (ref * Element) :=
  (fix go (i : nat) (l : list Element) : list (ref * Element) :=
     match l with
     | [] => []
     | c :: l' =>
         ([i], c) :: (prod_map (cons i) id <$> descendants c) ++ go (S i) l'
     end) 0%nat (children e).

(** Stated from the specification: the single lookup searches the direct and
    the nested groups in document order and returns the first one whose id
    is the given identifier, or nothing. *)
Definition getLayer_spec (self : ExistingDoc) (id : string) : option ref :=
  fst <$> head (filter (λ d, is_layer id d.2) (descendants (root self))).


(** The node a content is parsed into, for a content that is not an element
    and that [ET.fromstring] accepts. *)
Definition parsed (L : PyLib) (content : pyobj) : option Element :=
  if isinstance_Element content then None
  else match ET_fromstring L content with
       | Ret node => Some node
       | Raise _ => None
       end.

(** A token of the viewBox attribute holds no separator. *)
Definition sep_free (tok : string) : bool :=
  forallb (λ c, negb (is_sep c)) (list_ascii_of_string tok).

(** The elements of a list that carry a requested id, each with that id. *)
Definition requested (self : ExistingDoc) (ids : gset string)
    (els : list ref) : list (string * ref) :=
  omap (λ el,
          id ← lookup_at el (root self) ≫= (λ e, get e "id");
          if decide (id ∈ ids) then Some (id, el) else None) els.

(** A string without its separators. *)
Fixpoint remove_seps (s : string) : string :=
  match s with
  | EmptyString => EmptyString
  | String c s' => if is_sep c then remove_seps s' else String c (remove_seps s')
  end.

(** The plain difference, given as a delta function. *)
Definition subtraction : deltaFn := Some (λ a b, b - a)%Qc.

(** The document after a call of [inject]. *)
Definition injected (L : PyLib) (self : ScaledInjectionPoint)
    (content : pyobj) (doc : Element) : Element :=
  (inject L self content doc).2.

(** * Properties *)

(** ** Name resolution *)

Lemma LOAD_GLOBAL_NS : LOAD_GLOBAL "_NS" = Raise (NameError "_NS").
Proof. reflexivity. Qed.

Lemma LOAD_GLOBAL_inj : LOAD_GLOBAL "inj" = Raise (NameError "inj").
Proof. reflexivity. Qed.

(** The qualified name the single lookup uses does resolve. *)
Lemma ExistingDoc_NS :
  LOAD_GLOBAL "ExistingDoc" ≫= (λ cls, getattr cls "_NS")
  = Ret (PyDict [("svg", svg_uri)]).
Proof. reflexivity. Qed.

(** The other global names the methods mention are bound. *)
Lemma globals_bound :
  Forall (λ name, ∃ v, LOAD_GLOBAL name = Ret v)
    ["re"; "ET"; "ParseError"; "ExistingDoc"; "ScaledInjectionPoint";
     "isinstance"; "str"; "len"; "list"; "map"; "float"; "super"; "Exception"].
Proof. repeat constructor; eexists; reflexivity. Qed.


(** ** References into the document *)

Lemma lookup_alter_at f r doc :
  lookup_at r (alter_at f r doc) = f <$> lookup_at r doc.
Proof.
  revert doc. induction r as [|i r IH]; intros doc; simpl; [done|].
  rewrite list_lookup_alter_eq.
  destruct (children doc !! i) as [c|]; simpl; [apply IH | done].
Qed.

Lemma lookup_add_child r doc e sub :
  lookup_at r doc = Some e →
  lookup_at r (alter_at (add_child sub) r doc) = Some (add_child sub e).
Proof. intros H. by rewrite lookup_alter_at, H. Qed.

(** ** The bulk lookup *)

(** C9: every call of [getLayersByID_dict] raises [NameError] for the name
    [_NS], whatever the document and the requested identifiers: the bare
    name is not bound at module level (the table is reached as
    [ExistingDoc._NS] only), so that the call returns no mapping and never
    raises the [ParseError] of a duplicate id. *)
Theorem getLayersByID_dict_NameError (L : PyLib) (self : ExistingDoc)
    (ids : gset string) :
  getLayersByID_dict L self ids = Raise (NameError "_NS")
  ∧ assoc "_NS" module_globals = None
  ∧ assoc "_NS" ExistingDoc_attrs = Some (PyDict [("svg", svg_uri)])
  ∧ (∀ m, getLayersByID_dict L self ids ≠ Ret m)
  ∧ (∀ fmt arg, getLayersByID_dict L self ids ≠ Raise (ParseError fmt arg)).
Proof.
  assert (H : getLayersByID_dict L self ids = Raise (NameError "_NS")).
  { unfold getLayersByID_dict. rewrite LOAD_GLOBAL_NS. reflexivity. }
  rewrite H. repeat split; intros; discriminate.
Qed.

(** With the table [ExistingDoc._NS] in place of the unbound name, the rest
    of the body does what the docstring says: a duplicate id is a
    [ParseError], and the result maps the requested ids that occur. *)
Example getLayersByID_rest_duplicate :
  ET_findall sample_lib (root duplicate_doc) "svg:g[@id]"
      (PyDict [("svg", svg_uri)])
    ≫= (λ els, getLayersByID_loop duplicate_doc {["a"]} els ∅)
  = Raise (ParseError "Duplicate element with id %s" (PyStr "a")).
Proof. vm_compute. reflexivity. Qed.

Example getLayersByID_rest_subset :
  ET_findall sample_lib (root plot_doc) "svg:g[@id]"
      (PyDict [("svg", svg_uri)])
    ≫= (λ els, getLayersByID_loop plot_doc {["plot"; "absent"]} els ∅)
  = Ret {["plot" := [1%nat]]}.
Proof. vm_compute. reflexivity. Qed.

(** In general: when the requested ids met are pairwise distinct and new
    to the dictionary, the loop returns the dictionary extended by them;
    when one is met twice, or is already in the dictionary, it raises
    [ParseError]. *)
Lemma getLayersByID_loop_distinct self ids els : ∀ result : gmap string ref,
  NoDup (requested self ids els).*1 →
  (∀ id, id ∈ (requested self ids els).*1 → result !! id = None) →
  ∃ m : gmap string ref,
    getLayersByID_loop self ids els result = Ret m
    ∧ ∀ id el, m !! id = Some el
               ↔ (id, el) ∈ requested self ids els ∨ result !! id = Some el.
Proof.
  induction els as [|el els IH]; intros result Hnd Hnew; simpl.
  - exists result. split; [done|]. intros id el. rewrite elem_of_nil. tauto.
  - unfold requested in *. simpl in Hnd, Hnew |- *.
    destruct (lookup_at el (root self) ≫= λ e, get e "id") as [id|];
      simpl in *; [|by apply IH].
    destruct (decide (id ∈ ids)); simpl in *; [|by apply IH].
    apply list.NoDup_cons in Hnd as [Hid Hnd].
    assert (Hfree : result !! id = None) by (apply Hnew; left).
    destruct (decide (is_Some (result !! id))) as [[x Hx]|_]; [congruence|].
    destruct (IH (<[id:=el]> result) Hnd) as (m & Hm & Hlook).
    { intros id' Hid'. rewrite lookup_insert_ne by (by intros ->).
      apply Hnew. by right. }
    exists m. split; [done|]. intros k v. rewrite Hlook, elem_of_cons.
    destruct (decide (k = id)) as [->|Hne].
    + rewrite lookup_insert_eq, Hfree. split.
      * intros [?|[= ->]]; [by left; right | by left; left].
      * intros [[[= ->]|?]|?]; [by right | by left | done].
    + rewrite lookup_insert_ne by done. split.
      * intros [?|?]; [by left; right | by right].
      * intros [[[= ? ?]|?]|?]; [done | by left | by right].
Qed.

Lemma getLayersByID_loop_duplicate self ids els : ∀ result : gmap string ref,
  ¬ NoDup (requested self ids els).*1
  ∨ (∃ id, id ∈ (requested self ids els).*1 ∧ is_Some (result !! id)) →
  ∃ id, getLayersByID_loop self ids els result
        = Raise (ParseError "Duplicate element with id %s" (PyStr id)).
Proof.
  induction els as [|el els IH]; intros result Hdup; simpl.
  - destruct Hdup as [Hdup | (id & Hid & _)];
      [destruct Hdup; constructor | by apply elem_of_nil in Hid].
  - unfold requested in *. simpl in Hdup.
    destruct (lookup_at el (root self) ≫= λ e, get e "id") as [id|];
      simpl in *; [|by apply IH].
    destruct (decide (id ∈ ids)); simpl in *; [|by apply IH].
    destruct (decide (is_Some (result !! id))) as [|Hfree]; [by exists id|].
    apply IH. destruct Hdup as [Hdup | (i & Hi & Hsome)].
    + rewrite list.NoDup_cons in Hdup.
      destruct (decide (id ∈ (omap (λ el0,
                  (lookup_at el0 (root self) ≫= λ e, get e "id")
                  ≫= λ id0, if decide (id0 ∈ ids) then Some (id0, el0)
                             else None) els).*1)) as [Hin|Hnin].
      * right. exists id. split; [done|]. by rewrite lookup_insert_eq.
      * left. intros Hnd. by apply Hdup.
    + apply elem_of_cons in Hi as [->|Hi]; [done|].
      right. exists i. split; [done|].
      destruct (decide (i = id)) as [->|Hne];
        [by rewrite lookup_insert_eq | by rewrite lookup_insert_ne].
Qed.

(** C7: on a document with two groups of id [a] the bulk lookup raises
    [NameError], not [ParseError]; on a document without duplicates it
    raises [NameError] as well and returns no mapping. *)
Theorem getLayersByID_dict_fails :
  getLayersByID_dict sample_lib duplicate_doc {["a"]}
    = Raise (NameError "_NS")
  ∧ getLayersByID_dict sample_lib plot_doc {["plot"; "absent"]}
    = Raise (NameError "_NS").
Proof. split; reflexivity. Qed.

(** ** Injection *)

Section Inject.
Context (L : PyLib).

Lemma inject_element self e doc :
  inject L self (PyElement e) doc
  = match target self with
    | Some _ => (Raise (NameError "inj"), doc)
    | None => (Raise (AttributeError "append"), doc)
    end.
Proof. unfold inject. simpl. by destruct (target self). Qed.

Lemma inject_node self t content node doc :
  isinstance_Element content = false →
  target self = Some t →
  ET_fromstring L content = Ret node →
  inject L self content doc = (Ret (), alter_at (add_child node) t doc).
Proof.
  intros Hc Ht Hn. unfold inject. rewrite Hc.
  unfold try_except, mbind, stmt_bind, lift. by rewrite Ht, Hn.
Qed.


(** Whatever the content and the outcome, a call either leaves the target
    as it is or appends the parsed node to it. *)
Lemma inject_target self t content doc e :
  target self = Some t →
  lookup_at t doc = Some e →
  lookup_at t (inject L self content doc).2
  = Some (match parsed L content with
          | Some node => add_child node e
          | None => e
          end).
Proof.
  intros Ht He. unfold parsed.
  destruct (isinstance_Element content) eqn:Hc.
  - destruct content; try discriminate. by rewrite inject_element, Ht.
  - destruct (ET_fromstring L content) as [node|x] eqn:Hn.
    + rewrite (inject_node _ t _ node) by done. simpl.
      by apply lookup_add_child.
    + unfold inject. rewrite Hc.
      unfold try_except, mbind, stmt_bind, lift. rewrite Ht, Hn.
      by destruct x.
Qed.


End Inject.

(** C10, as stated, fails: for an id no layer bears, [getLayerInjector]
    returns an injection point whose target is [None], and on it [inject]
    called with an [Element] raises [AttributeError], not [NameError]: the
    lookup of [self.target.append] fails before the name [inj] is
    evaluated. *)
Lemma inject_Element_no_target :
  (∃ ip, getLayerInjector sample_lib plot_scaled "absent"
           (Qc_of_Z 0, Qc_of_Z 10) (Qc_of_Z 0, Qc_of_Z 5) = Ret ip
         ∧ target ip = None
         ∧ inject sample_lib ip (PyElement circle) (root plot_doc)
           = (Raise (AttributeError "append"), root plot_doc))
  ∧ inject sample_lib lost_point (PyElement circle) (root plot_doc)
    = (Raise (AttributeError "append"), root plot_doc)
  ∧ ¬ raises (inject sample_lib lost_point (PyElement circle)
                (root plot_doc)).1 "NameError".
Proof.
  split; [eexists; repeat split; reflexivity|].
  split; [reflexivity|].
  intros (e & He & Hname). vm_compute in He.
  injection He as <-. discriminate.
Qed.

(** C10, amended: [inject] called with an [Element] never appends it and
    leaves the document as it is.  On an injection point whose target is an
    element it raises [NameError] for the name [inj], and the child list of
    the target is as before the call; on an injection point whose target is
    [None] it raises [AttributeError]. *)
Theorem inject_Element_NameError (L : PyLib) (self : ScaledInjectionPoint)
    (e : Element) (doc : Element) :
  isinstance_Element (PyElement e) = true
  ∧ (inject L self (PyElement e) doc).2 = doc
  ∧ (∀ t, target self = Some t →
       inject L self (PyElement e) doc = (Raise (NameError "inj"), doc)
       ∧ children <$> lookup_at t (inject L self (PyElement e) doc).2
         = children <$> lookup_at t doc)
  ∧ (target self = None →
       inject L self (PyElement e) doc
       = (Raise (AttributeError "append"), doc)).
Proof.
  rewrite inject_element.
  split; [reflexivity|]. split; [by destruct (target self)|]. split.
  - intros t Ht. rewrite Ht. by split.
  - intros Ht. by rewrite Ht.
Qed.

Lemma inject_Element_NameError_witness :
  target plot_point = Some [1%nat]
  ∧ inject sample_lib plot_point (PyElement circle) (root plot_doc)
    = (Raise (NameError "inj"), root plot_doc)
  ∧ children <$>
      lookup_at [1%nat]
        (inject sample_lib plot_point (PyElement circle) (root plot_doc)).2
    = children <$> lookup_at [1%nat] (root plot_doc)
  ∧ target lost_point = None
  ∧ inject sample_lib lost_point (PyElement circle) (root plot_doc)
    = (Raise (AttributeError "append"), root plot_doc).
Proof.
  destruct (inject_Element_NameError sample_lib plot_point circle
              (root plot_doc)) as (_ & _ & Hsome & _).
  destruct (inject_Element_NameError sample_lib lost_point circle
              (root plot_doc)) as (_ & _ & _ & Hnone).
  destruct (Hsome [1%nat] eq_refl) as [Hraise Hchildren].
  split; [reflexivity|]. split; [exact Hraise|]. split; [exact Hchildren|].
  split; [reflexivity|]. exact (Hnone eq_refl).
Defined.

(** C5: on the injection point of layer [plot], which has no child,
    [inject] called with the element [circle] raises [NameError] and the
    layer still has no child: the node is not appended. *)
Theorem inject_Element_not_appended :
  inject sample_lib plot_point (PyElement circle) (root plot_doc)
    = (Raise (NameError "inj"), root plot_doc)
  ∧ children <$> lookup_at [1%nat] (root plot_doc) = Some []
  ∧ children <$>
      lookup_at [1%nat]
        (inject sample_lib plot_point (PyElement circle) (root plot_doc)).2
    = Some [].
Proof. repeat split; reflexivity. Qed.



(** ** The viewport box *)

Section ViewBox.
Context (L : PyLib).


Lemma viewBox_count self vbox :
  get (root self) "viewBox" = Some vbox →
  length (re_findall_coords vbox) ≠ 4%nat →
  viewBox L self
  = Raise (ParseError "viewBox coordinates not valid: %s" (PyStr vbox)).
Proof. intros H Hn. unfold viewBox. rewrite H. by case_decide. Qed.

Lemma viewBox_numeric self vbox a b c d x y w h :
  get (root self) "viewBox" = Some vbox →
  re_findall_coords vbox = [a; b; c; d] →
  py_float L a = Some x → py_float L b = Some y →
  py_float L c = Some w → py_float L d = Some h →
  viewBox L self = Ret (Some [x; y; w; h]).
Proof.
  intros H Hc Ha Hb Hw Hh. unfold viewBox. rewrite H, Hc. simpl.
  unfold float. by rewrite Ha, Hb, Hw, Hh.
Qed.

Lemma float_Some s q : py_float L s = Some q → float L s = Ret q.
Proof. intros H. unfold float. by rewrite H. Qed.

Lemma float_None s : py_float L s = None → float L s = Raise ValueError.
Proof. intros H. unfold float. by rewrite H. Qed.

Lemma mapM_cons {A B} (f : A → pyres B) x l :
  mapM f (x :: l) = f x ≫= λ y, mapM f l ≫= λ k, mret (y :: k).
Proof. reflexivity. Qed.

Lemma mapM_float_None coords tok :
  tok ∈ coords → py_float L tok = None →
  mapM (float L) coords = Raise ValueError.
Proof.
  induction coords as [|c cs IH]; intros Hin Hf; [by apply elem_of_nil in Hin|].
  rewrite mapM_cons.
  destruct (py_float L c) as [q|] eqn:Hc.
  - apply elem_of_cons in Hin as [-> | Hin]; [congruence|].
    rewrite (float_Some _ _ Hc), IH by done. reflexivity.
  - by rewrite (float_None _ Hc).
Qed.

(** Four tokens of which one is not a number: the conversion raises the
    [ValueError] of [float], which [viewBox] lets through. *)
Lemma viewBox_nonnumeric self vbox tok :
  get (root self) "viewBox" = Some vbox →
  length (re_findall_coords vbox) = 4%nat →
  tok ∈ re_findall_coords vbox → py_float L tok = None →
  viewBox L self = Raise ValueError.
Proof.
  intros H Hn Hin Hf. unfold viewBox. rewrite H.
  case_decide; [done|]. by rewrite (mapM_float_None _ tok).
Qed.

End ViewBox.

(** Splitting: tokens written one after the other, each followed by a
    separator, are read back as they are. *)

Lemma append_nil s : "" +:+ s = s.
Proof. reflexivity. Qed.

Lemma append_cons a s s' : String a s +:+ s' = String a (s +:+ s').
Proof. reflexivity. Qed.

Lemma append_snoc cur c tok :
  (cur +:+ String c "") +:+ tok = cur +:+ String c tok.
Proof.
  induction cur as [|a cur IH]; [reflexivity|].
  rewrite !append_cons. by rewrite IH.
Qed.

Lemma append_empty_r s : s +:+ "" = s.
Proof.
  induction s as [|a s IH]; [reflexivity|]. by rewrite append_cons, IH.
Qed.

Lemma runs_token tok : ∀ cur rest,
  sep_free tok = true → runs cur (tok +:+ rest) = runs (cur +:+ tok) rest.
Proof.
  induction tok as [|c tok IH]; intros cur rest Hf.
  - by rewrite append_nil, append_empty_r.
  - rewrite append_cons. simpl. unfold sep_free in Hf. simpl in Hf. apply andb_true_iff in Hf as [Hc Hf].
    apply negb_true_iff in Hc. rewrite Hc, IH by done.
    by rewrite append_snoc.
Qed.

(** X22: tokens that are not empty and hold no separator, written one
    after the other and each followed by the same separator, are the tokens
    read back, in the same order. *)
Lemma re_findall_coords_join toks sep :
  is_sep sep = true →
  Forall (λ tok, tok ≠ "" ∧ sep_free tok = true) toks →
  re_findall_coords
    (foldr (λ tok rest, tok +:+ String sep rest) "" toks) = toks.
Proof.
  intros Hsep Htoks. unfold re_findall_coords.
  induction Htoks as [|tok toks [Hne Hf] _ IH]; simpl; [done|].
  rewrite runs_token by done. rewrite append_nil. simpl. rewrite Hsep.
  case_decide; [done|]. by rewrite IH.
Qed.

(** C6: on a document whose [viewBox] attribute is [0 0 100 abc], four
    tokens of which the last is not a number, [viewBox] raises the
    [ValueError] of [float] and not the module's [ParseError]. *)
Theorem viewBox_nonnumeric_ValueError :
  get (root badbox_doc) "viewBox" = Some "0 0 100 abc"
  ∧ re_findall_coords "0 0 100 abc" = ["0"; "0"; "100"; "abc"]
  ∧ viewBox sample_lib badbox_doc = Raise ValueError
  ∧ ¬ raises (viewBox sample_lib badbox_doc) "ParseError".
Proof.
  repeat split; try reflexivity.
  intros (e & He & Hname). vm_compute in He.
  injection He as <-. discriminate.
Qed.

(** The other cases of [viewBox] on concrete documents. *)
Example viewBox_plot_doc :
  viewBox sample_lib plot_doc = Ret (Some plot_box).
Proof.
  apply (viewBox_numeric sample_lib plot_doc "0 0 100 50" "0" "0" "100" "50");
    reflexivity.
Qed.

Example viewBox_nobox_doc : viewBox sample_lib nobox_doc = Ret None.
Proof. reflexivity. Qed.

(** ** The coordinate transform *)

Lemma truediv_zero a b : b = 0%Qc → truediv a b = Raise ZeroDivisionError.
Proof. intros ->. unfold truediv. by case_decide. Qed.

Lemma truediv_nonzero a b : b ≠ 0%Qc → truediv a b = Ret (a / b)%Qc.
Proof. intros H. unfold truediv. by case_decide. Qed.

Lemma Qc_sub_eq_zero (a b : Qc) : (b - a = 0)%Qc ↔ a = b.
Proof.
  split; [|intros ->; ring].
  intros H. transitivity (b - a + a)%Qc; [rewrite H|]; ring.
Qed.

(** With the default deltas and non-degenerate ranges the construction
    succeeds, and the fields are those the source assigns. *)
Lemma NumDocTrafo_init_default (x y w h a b c d : Qc) :
  a ≠ b → c ≠ d →
  ∃ t, NumDocTrafo_init (Some [x; y; w; h]) (a, b) (c, d) None None = Ret t
       ∧ HXscale t = (w / (b - a))%Qc ∧ VYscale t = (w / (d - c))%Qc
       ∧ h2x t = (λ k, (k - a) * (w / (b - a)) + x)%Qc
       ∧ v2y t = (λ k, (k - c) * (w / (d - c)) + y)%Qc.
Proof.
  intros Hab Hcd. unfold NumDocTrafo_init. simpl.
  rewrite !truediv_nonzero by (by rewrite Qc_sub_eq_zero).
  eexists. split; [reflexivity|]. by repeat split.
Qed.

(** Both maps send the near end of the range to the origin of the box; the
    horizontal map sends the far end to the origin plus the width, and so
    does the vertical map: its scale is computed from the width as well. *)
Lemma NumDocTrafo_endpoints (x y w h a b c d : Qc) :
  a ≠ b → c ≠ d →
  ∃ t, NumDocTrafo_init (Some [x; y; w; h]) (a, b) (c, d) None None = Ret t
       ∧ h2x t a = x ∧ h2x t b = (x + w)%Qc
       ∧ v2y t c = y ∧ v2y t d = (y + w)%Qc.
Proof.
  intros Hab Hcd.
  destruct (NumDocTrafo_init_default x y w h a b c d Hab Hcd)
    as (t & Ht & _ & _ & Hh & Hv).
  exists t. split; [done|]. rewrite Hh, Hv.
  assert (b - a ≠ 0)%Qc by (by rewrite Qc_sub_eq_zero).
  assert (d - c ≠ 0)%Qc by (by rewrite Qc_sub_eq_zero).
  repeat split; field; done.
Qed.

(** C1: for the box [0 0 100 50] and the ranges [(0, 10)] and [(0, 5)] the
    horizontal map sends the endpoints to [0] and [100], the edges of the
    box, and the vertical map sends them to [0] and [100]: the far end is
    not sent to [0 + 50], the far edge of the box. *)
Theorem v2y_far_end_not_far_edge :
  ∃ t, NumDocTrafo_init (Some plot_box) (Qc_of_Z 0, Qc_of_Z 10)
         (Qc_of_Z 0, Qc_of_Z 5) None None = Ret t
       ∧ h2x t (Qc_of_Z 0) = Qc_of_Z 0
       ∧ h2x t (Qc_of_Z 10) = (Qc_of_Z 0 + Qc_of_Z 100)%Qc
       ∧ v2y t (Qc_of_Z 0) = Qc_of_Z 0
       ∧ v2y t (Qc_of_Z 5) = Qc_of_Z 100
       ∧ v2y t (Qc_of_Z 5) ≠ (Qc_of_Z 0 + Qc_of_Z 50)%Qc.
Proof.
  eexists. split; [reflexivity|].
  repeat split; try (apply Qc_is_canon; reflexivity).
  intros H. apply (f_equal this) in H. vm_compute in H. discriminate.
Qed.




(** ** The single lookup *)

Lemma span_quote_free value rest :
  quote_free value = true →
  span (λ c, negb (bool_decide (c = quote))) (value +:+ String quote rest)
  = (value, String quote rest).
Proof.
  induction value as [|c value IH]; intros Hq; [reflexivity|].
  simpl in Hq. apply andb_true_iff in Hq as [Hc Hq].
  rewrite append_cons. simpl. by rewrite Hc, IH.
Qed.

(** The path of [getLayer] is read as: prefix [svg], tag [g], attribute
    [id] equal to the identifier. *)
Lemma parse_path_getLayer id :
  quote_free id = true →
  parse_path ("svg:g[@id='" +:+ id +:+ "']")
  = Some {| step_prefix := "svg"; step_local := "g";
            step_pred := AttrEq "id" id |}.
Proof.
  intros Hq. rewrite !append_cons, append_nil.
  unfold parse_path. simpl. unfold parse_predicate.
  case_decide as Hr; [discriminate Hr|]. simpl.
  change (String "'" "]") with (String quote "]").
  rewrite span_quote_free by done. reflexivity.
Qed.

Lemma select_head qtag p l : ∀ i,
  match head (select qtag p i l) with
  | Some r =>
      ∃ j e, r = [(i + j)%nat] ∧ l !! j = Some e
             ∧ (tag e = qtag ∧ holds p e = true)
             ∧ ∀ j' e', (j' < j)%nat → l !! j' = Some e' →
                 ¬ (tag e' = qtag ∧ holds p e' = true)
  | None =>
      ∀ j e, l !! j = Some e → ¬ (tag e = qtag ∧ holds p e = true)
  end.
Proof.
  induction l as [|c l IH]; intros i; simpl.
  - intros j e Hj. by rewrite lookup_nil in Hj.
  - destruct (bool_decide (tag c = qtag) && holds p c) eqn:Hc; simpl.
    + apply andb_true_iff in Hc as [Ht Hp]. apply bool_decide_eq_true in Ht.
      exists 0%nat, c. rewrite Nat.add_0_r. repeat split; try done. lia.
    + assert (Hno : ¬ (tag c = qtag ∧ holds p c = true)).
      { intros [Ht Hp]. rewrite Hp, bool_decide_eq_true_2 in Hc by done.
        discriminate. }
      specialize (IH (S i)).
      destruct (head (select qtag p (S i) l)) as [r|].
      * destruct IH as (j & e & -> & Hj & He & Hfirst).
        exists (S j), e. rewrite Nat.add_succ_r. repeat split; try done.
        -- apply He.
        -- apply He.
        -- intros [|j'] e' Hlt Hj'; simpl in Hj'.
           ++ by injection Hj' as <-.
           ++ apply (Hfirst j' e'); [lia | done].
      * intros [|j] e Hj; simpl in Hj; [by injection Hj as <- | by eapply IH].
Qed.

Lemma holds_AttrEq_id id e :
  tag e = svg_tag "g" ∧ holds (AttrEq "id" id) e = true ↔ is_layer id e.
Proof.
  unfold is_layer. simpl. by rewrite bool_decide_eq_true.
Qed.

(** C8, as stated, fails: a group nested in a group is in the document,
    the lookup of the specification finds it, and [getLayer] returns
    [None]. *)
Lemma getLayer_misses_nested :
  lookup_at [0; 0]%nat (root nested_doc) = Some (g "inner" [])
  ∧ is_layer "inner" (g "inner" [])
  ∧ getLayer_spec nested_doc "inner" = Some [0; 0]%nat
  ∧ getLayer sample_lib nested_doc "inner" = Ret None
  ∧ getLayer sample_lib nested_doc "inner"
    ≠ Ret (getLayer_spec nested_doc "inner").
Proof. repeat split; try reflexivity. discriminate. Qed.

(** C8, amended: for an identifier without a quote, [getLayer] returns
    without raising; the result is the first child of the root, in document
    order, that is a group of the SVG namespace with that id, and [None]
    when no child of the root is one. *)
Theorem getLayer_first_child (L : PyLib) (self : ExistingDoc) (id : string) :
  quote_free id = true →
  ∃ o, getLayer L self id = Ret o
       ∧ match o with
         | Some r =>
             ∃ i e, r = [i] ∧ children (root self) !! i = Some e
                    ∧ is_layer id e
                    ∧ ∀ j e', (j < i)%nat →
                        children (root self) !! j = Some e' → ¬ is_layer id e'
         | None =>
             ∀ i e, children (root self) !! i = Some e → ¬ is_layer id e
         end.
Proof.
  intros Hq. unfold getLayer.
  change (LOAD_GLOBAL "ExistingDoc")
    with (Ret (PyClass "ExistingDoc" ExistingDoc_attrs)).
  change (Ret (PyClass "ExistingDoc" ExistingDoc_attrs)
            ≫= (λ cls, getattr cls "_NS"
                  ≫= ET_find L (root self) ("svg:g[@id='" +:+ id +:+ "']")))
    with (ET_find L (root self) ("svg:g[@id='" +:+ id +:+ "']")
            (PyDict [("svg", svg_uri)])).
  unfold ET_find, ET_iterfind.
  rewrite parse_path_getLayer by done. simpl.
  eexists. split; [reflexivity|].
  pose proof (select_head (svg_tag "g") (AttrEq "id" id)
                (children (root self)) 0) as H.
  change ("{" +:+ svg_uri +:+ "}" +:+ "g") with (svg_tag "g").
  destruct (head (select (svg_tag "g") (AttrEq "id" id) 0
                    (children (root self)))) as [r|].
  - destruct H as (j & e & Hr & Hj & He & Hfirst).
    exists j, e. split; [exact Hr|]. split; [exact Hj|].
    split; [by apply holds_AttrEq_id|].
    intros j' e' Hlt Hj' Hl. by apply (Hfirst j' e' Hlt Hj'), holds_AttrEq_id.
  - intros i e Hi Hl. by apply (H i e Hi), holds_AttrEq_id.
Qed.

Lemma getLayer_first_child_witness :
  quote_free "plot" = true
  ∧ getLayer sample_lib plot_doc "plot" = Ret (Some [1%nat])
  ∧ ∃ o, getLayer sample_lib plot_doc "plot" = Ret o
       ∧ match o with
         | Some r =>
             ∃ i e, r = [i] ∧ children (root plot_doc) !! i = Some e
                    ∧ is_layer "plot" e
                    ∧ ∀ j e', (j < i)%nat →
                        children (root plot_doc) !! j = Some e' →
                        ¬ is_layer "plot" e'
         | None =>
             ∀ i e, children (root plot_doc) !! i = Some e →
                    ¬ is_layer "plot" e
         end.
Proof.
  split; [reflexivity|]. split; [reflexivity|].
  apply (getLayer_first_child sample_lib plot_doc "plot"). reflexivity.
Defined.

(** ** The injector of a layer *)

Lemma inject_no_target (L : PyLib) self content doc :
  target self = None →
  inject L self content doc = (Raise (AttributeError "append"), doc).
Proof.
  intros Ht. unfold inject, try_except, mbind, stmt_bind, lift.
  rewrite Ht. simpl. by destruct (isinstance_Element content).
Qed.

Lemma ScaledInjectionPoint_init_target o box hrange vrange kw ip :
  ScaledInjectionPoint_init o box hrange vrange kw = Ret ip → target ip = o.
Proof.
  unfold ScaledInjectionPoint_init.
  destruct (NumDocTrafo_init _ _ _ _ _) as [t|e]; simpl; [|discriminate].
  by intros [= <-].
Qed.





(** ** From the document to the injected content *)

(** The injector of layer [plot] over the ranges [(0, 10)] and [(0, 5)]:
    it refers to the second child of the root, its maps send the world
    point [(5, 5/2)] to [(50, 50)], and injecting [<circle/>] gives the layer
    its only child. *)
Example getLayerInjector_plot :
  ∃ ip, getLayerInjector sample_lib plot_scaled "plot"
          (Qc_of_Z 0, Qc_of_Z 10) (Qc_of_Z 0, Qc_of_Z 5) = Ret ip
        ∧ target ip = Some [1%nat]
        ∧ h2x ip (Qc_of_Z 5) = Qc_of_Z 50
        ∧ v2y ip (Qc_of_Z 5 / Qc_of_Z 2)%Qc = Qc_of_Z 50
        ∧ ∃ doc', inject sample_lib ip (PyStr "<circle/>") (root plot_doc)
                  = (Ret (), doc')
                  ∧ children <$> lookup_at [1%nat] doc' = Some [circle].
Proof.
  eexists. split; [reflexivity|]. split; [reflexivity|].
  do 2 (split; [apply Qc_is_canon; reflexivity|]).
  eexists. split; reflexivity.
Qed.

(** * Further properties of the module *)

(** ** The tokens of the [viewBox] attribute *)

Lemma runs_app_sep sep a : ∀ cur b,
  is_sep sep = true →
  runs cur (a +:+ String sep b) = runs cur a ++ runs "" b.
Proof.
  induction a as [|c a IH]; intros cur b Hsep.
  - rewrite append_nil. simpl. rewrite Hsep. by case_decide.
  - rewrite append_cons. simpl.
    destruct (is_sep c); [|by apply IH].
    case_decide; rewrite IH by done; reflexivity.
Qed.

(** X3: a separator splits the attribute: the tokens of [a], a separator
    and [b] are the tokens of [a] followed by those of [b]. *)
Theorem re_findall_coords_split (sep : ascii) (a b : string) :
  is_sep sep = true →
  re_findall_coords (a +:+ String sep b)
  = re_findall_coords a ++ re_findall_coords b.
Proof. intros Hsep. by apply runs_app_sep. Qed.

Lemma re_findall_coords_split_witness :
  is_sep "," = true
  ∧ re_findall_coords ("0 0" +:+ String "," "100,50")
    = re_findall_coords "0 0" ++ re_findall_coords "100,50".
Proof.
  split; [reflexivity|].
  apply (re_findall_coords_split "," "0 0" "100,50"). reflexivity.
Defined.

Lemma sep_free_snoc cur c :
  sep_free cur = true → is_sep c = false →
  sep_free (cur +:+ String c "") = true.
Proof.
  unfold sep_free. intros Hcur Hc.
  induction cur as [|a cur IH].
  - simpl. by rewrite Hc.
  - rewrite append_cons. simpl in *.
    apply andb_true_iff in Hcur as [Ha Hcur]. by rewrite Ha, IH.
Qed.

Lemma snoc_nonempty cur c : cur +:+ String c "" ≠ "".
Proof. by destruct cur. Qed.

Lemma runs_tokens s : ∀ cur,
  sep_free cur = true →
  Forall (λ tok, tok ≠ "" ∧ sep_free tok = true) (runs cur s).
Proof.
  induction s as [|c s IH]; intros cur Hcur; simpl.
  - case_decide; repeat constructor; done.
  - destruct (is_sep c) eqn:Hc.
    + case_decide; [by apply IH|]. constructor; [done | by apply IH].
    + apply IH. by apply sep_free_snoc.
Qed.

Lemma runs_concat s : ∀ cur,
  foldr String.append "" (runs cur s) = cur +:+ remove_seps s.
Proof.
  induction s as [|c s IH]; intros cur; simpl.
  - case_decide as Hcur; simpl; [by rewrite Hcur | done].
  - destruct (is_sep c).
    + case_decide as Hcur; simpl; rewrite IH; [by rewrite Hcur | done].
    + by rewrite IH, append_snoc.
Qed.

(** X4: no token is empty, no token holds a separator, and the tokens put
    one after the other are the attribute without its separators. *)
Theorem re_findall_coords_tokens (s : string) :
  Forall (λ tok, tok ≠ "" ∧ sep_free tok = true) (re_findall_coords s)
  ∧ foldr String.append "" (re_findall_coords s) = remove_seps s.
Proof.
  split; [by apply runs_tokens|].
  unfold re_findall_coords. by rewrite runs_concat.
Qed.

Lemma re_findall_coords_join_witness :
  is_sep " " = true
  ∧ Forall (λ tok, tok ≠ "" ∧ sep_free tok = true) ["-5"; "0"; "12.5"; "7"]
  ∧ re_findall_coords "-5 0 12.5 7 " = ["-5"; "0"; "12.5"; "7"].
Proof.
  assert (H : Forall (λ tok, tok ≠ "" ∧ sep_free tok = true)
                ["-5"; "0"; "12.5"; "7"]).
  { repeat constructor; discriminate. }
  split; [reflexivity|]. split; [exact H|].
  exact (re_findall_coords_join ["-5"; "0"; "12.5"; "7"] " " eq_refl H).
Defined.

(** ** The outcomes of [viewBox] *)

Section ViewBoxOutcome.
Context (L : PyLib).

Lemma mapM_float_Ret coords : ∀ l,
  mapM (float L) coords = Ret l
  ↔ Forall2 (λ tok q, py_float L tok = Some q) coords l.
Proof.
  induction coords as [|c cs IH]; intros l.
  - change (mapM (float L) []) with (Ret (@nil Qc)).
    split; [intros [= <-]; constructor | by inversion 1].
  - rewrite mapM_cons.
    destruct (py_float L c) as [q|] eqn:Hc;
      [rewrite (float_Some L c q Hc) | rewrite (float_None L c Hc)]; simpl.
    + destruct (mapM (float L) cs) as [k|e] eqn:Hk; simpl.
      * change (mret (q :: k)) with (Ret (q :: k)). split.
        -- intros [= <-]. constructor; [done | by apply IH].
        -- inversion 1 as [|? q' ? k' Hq Hk']; subst.
           apply IH in Hk'. rewrite Hc in Hq. congruence.
      * split; [done|].
        inversion 1 as [|? q' ? k' Hq Hk']; subst.
        by apply IH in Hk'.
    + split; [done|]. inversion 1; congruence.
Qed.

Lemma mapM_float_Raise coords e :
  mapM (float L) coords = Raise e →
  e = ValueError ∧ ∃ tok, tok ∈ coords ∧ py_float L tok = None.
Proof.
  induction coords as [|c cs IH]; [done|].
  rewrite mapM_cons.
  destruct (py_float L c) as [q|] eqn:Hc;
    [rewrite (float_Some L c q Hc) | rewrite (float_None L c Hc)]; simpl.
  - destruct (mapM (float L) cs) as [k|e'] eqn:Hk; simpl; [done|].
    intros [= <-]. destruct (IH eq_refl) as (-> & tok & Hin & Hf).
    split; [done|]. exists tok. split; [by right | done].
  - intros [= <-]. split; [done|]. exists c. split; [by left | done].
Qed.

End ViewBoxOutcome.

(** X1: [viewBox] returns [None] exactly when the root has no [viewBox]
    attribute, and returns a list exactly when the attribute has four tokens
    that [float] accepts; the list then holds their four values in order. *)
Theorem viewBox_returns (L : PyLib) (self : ExistingDoc) :
  (viewBox L self = Ret None ↔ get (root self) "viewBox" = None)
  ∧ ∀ l, viewBox L self = Ret (Some l)
         ↔ ∃ vbox, get (root self) "viewBox" = Some vbox
                   ∧ length l = 4%nat
                   ∧ Forall2 (λ tok q, py_float L tok = Some q)
                       (re_findall_coords vbox) l.
Proof.
  unfold viewBox.
  destruct (get (root self) "viewBox") as [vbox|]; split.
  - case_decide; [done|].
    destruct (mapM (float L) (re_findall_coords vbox)); done.
  - intros l. case_decide as Hn.
    + split; [done|]. intros (? & [= <-] & Hl & Hall).
      apply Forall2_length in Hall. congruence.
    + destruct (mapM (float L) (re_findall_coords vbox)) as [k|e] eqn:Hk;
        simpl.
      * apply mapM_float_Ret in Hk. split.
        -- intros [= <-]. exists vbox. split; [done|].
           split; [|done]. apply Forall2_length in Hk.
           destruct (decide (length (re_findall_coords vbox) = 4%nat));
             [congruence | tauto].
        -- intros (? & [= <-] & _ & Hall).
           apply mapM_float_Ret in Hall.
           apply mapM_float_Ret in Hk. congruence.
      * split; [done|]. intros (? & [= <-] & _ & Hall).
        apply mapM_float_Ret in Hall. congruence.
  - done.
  - intros l. split; [done | by intros (? & ? & _)].
Qed.

(** X2: [viewBox] raises its [ParseError] exactly when the attribute has a
    number of tokens other than four, whatever the tokens are, raises
    [ValueError] exactly when it has four tokens one of which [float]
    rejects, and raises nothing else. *)
Theorem viewBox_raises (L : PyLib) (self : ExistingDoc) (e : exn) :
  viewBox L self = Raise e
  ↔ ∃ vbox, get (root self) "viewBox" = Some vbox
      ∧ ((length (re_findall_coords vbox) ≠ 4%nat
          ∧ e = ParseError "viewBox coordinates not valid: %s" (PyStr vbox))
         ∨ (length (re_findall_coords vbox) = 4%nat
            ∧ e = ValueError
            ∧ ∃ tok, tok ∈ re_findall_coords vbox ∧ py_float L tok = None)).
Proof.
  unfold viewBox.
  destruct (get (root self) "viewBox") as [vbox|];
    [|split; [done | by intros (? & ? & _)]].
  case_decide as Hn.
  - split.
    + intros [= <-]. exists vbox. split; [done|]. by left.
    + intros (? & [= <-] & [[_ ->] | [Hl _]]); [done | congruence].
  - assert (Hl : length (re_findall_coords vbox) = 4%nat).
    { destruct (decide (length (re_findall_coords vbox) = 4%nat)); tauto. }
    destruct (mapM (float L) (re_findall_coords vbox)) as [k|e'] eqn:Hk;
      simpl.
    + split; [done|].
      intros (? & [= <-] & [[Hne _] | (_ & _ & tok & Hin & Hf)]); [done|].
      by rewrite (mapM_float_None L _ tok) in Hk.
    + destruct (mapM_float_Raise L _ _ Hk) as (-> & tok & Hin & Hf). split.
      * intros [= <-]. exists vbox. split; [done|]. right. eauto.
      * by intros (? & [= <-] & [[Hne _] | (_ & -> & _)]).
Qed.

(** ** The outcomes and the maps of [NumDocTrafo.__init__] *)




(** X7: the plain difference passed as delta function builds the same
    transform as no delta function, and fails in the same way. *)
Theorem NumDocTrafo_init_subtraction (box : option (list Qc))
    (hrange vrange : Qc * Qc) :
  NumDocTrafo_init box hrange vrange subtraction subtraction
  = NumDocTrafo_init box hrange vrange None None
  ∧ NumDocTrafo_init box hrange vrange subtraction None
    = NumDocTrafo_init box hrange vrange None None
  ∧ NumDocTrafo_init box hrange vrange None subtraction
    = NumDocTrafo_init box hrange vrange None None.
Proof.
  destruct hrange as [a b], vrange as [c d].
  destruct box as [l|]; [|done].
  by destruct l as [|x [|y [|w [|h [|z l]]]]].
Qed.

(** The height of the box plays no part in the construction. *)
Lemma NumDocTrafo_init_height (x y w h h' : Qc)
    (hrange vrange : Qc * Qc) (dH dV : deltaFn) :
  NumDocTrafo_init (Some [x; y; w; h]) hrange vrange dH dV
  = NumDocTrafo_init (Some [x; y; w; h']) hrange vrange dH dV.
Proof. by destruct hrange, vrange. Qed.

(** ** What [inject] does to the document *)

Section InjectEffect.
Context (L : PyLib).

(** The document after a call: the parsed node appended at the target, or
    the document as it was. *)
Lemma injected_eq self content doc :
  injected L self content doc
  = match target self, parsed L content with
    | Some t, Some node => alter_at (add_child node) t doc
    | _, _ => doc
    end.
Proof.
  unfold injected. destruct (target self) as [t|] eqn:Ht.
  - unfold parsed. destruct (isinstance_Element content) eqn:Hc.
    + destruct content; try discriminate. by rewrite inject_element, Ht.
    + destruct (ET_fromstring L content) as [node|x] eqn:Hn.
      * by rewrite (inject_node L self t content node).
      * unfold inject. rewrite Hc.
        unfold try_except, mbind, stmt_bind, lift. rewrite Ht, Hn.
        by destruct x.
  - rewrite inject_no_target by done. by destruct (parsed L content).
Qed.

Lemma alter_at_shape node t : ∀ r doc e,
  lookup_at r doc = Some e →
  ∃ e', lookup_at r (alter_at (add_child node) t doc) = Some e'
        ∧ tag e' = tag e ∧ attrib e' = attrib e
        ∧ (length (children e) ≤ length (children e'))%nat.
Proof.
  induction t as [|j t IH]; intros r doc e Hr.
  - destruct r as [|i r]; simpl in *.
    + injection Hr as <-. eexists. split; [done|]. simpl.
      rewrite length_app. repeat split; lia.
    + destruct (children doc !! i) as [c|] eqn:Hi; [|done].
      rewrite lookup_app_l by (by eapply lookup_lt_Some).
      rewrite Hi. simpl in *. exists e. by repeat split.
  - destruct r as [|i r]; simpl in *.
    + injection Hr as <-. eexists. split; [done|]. simpl.
      rewrite length_alter. by repeat split.
    + destruct (decide (j = i)) as [->|Hne].
      * rewrite list_lookup_alter_eq.
        destruct (children doc !! i) as [c|]; [|done]. simpl in *.
        by apply IH.
      * rewrite list_lookup_alter_ne by done.
        exists e. by repeat split.
Qed.

Lemma alter_at_frame node t : ∀ r doc e,
  ¬ r `prefix_of` t →
  lookup_at r doc = Some e →
  lookup_at r (alter_at (add_child node) t doc) = Some e.
Proof.
  induction t as [|j t IH]; intros r doc e Hpre Hr.
  - destruct r as [|i r]; [destruct Hpre; apply prefix_nil|].
    simpl in *. destruct (children doc !! i) as [c|] eqn:Hi; [|done].
    rewrite lookup_app_l by (by eapply lookup_lt_Some). by rewrite Hi.
  - destruct r as [|i r]; [destruct Hpre; apply prefix_nil|].
    simpl in *. destruct (decide (j = i)) as [->|Hne].
    + rewrite list_lookup_alter_eq.
      destruct (children doc !! i) as [c|]; [|done]. simpl in *.
      apply IH; [|done]. intros Hp. apply Hpre. by apply prefix_cons.
    + by rewrite list_lookup_alter_ne.
Qed.

Lemma alter_at_commute f g t1 : ∀ t2 doc,
  ¬ t1 `prefix_of` t2 → ¬ t2 `prefix_of` t1 →
  alter_at f t1 (alter_at g t2 doc) = alter_at g t2 (alter_at f t1 doc).
Proof.
  induction t1 as [|i t1 IH]; intros t2 doc H1 H2;
    [destruct H1; apply prefix_nil|].
  destruct t2 as [|j t2]; [destruct H2; apply prefix_nil|].
  simpl. f_equal. destruct (decide (i = j)) as [->|Hne].
  - rewrite !list_alter_alter_eq. apply list_alter_ext; [|done].
    intros c _. simpl. apply IH.
    + intros Hp. apply H1. by apply prefix_cons.
    + intros Hp. apply H2. by apply prefix_cons.
  - by apply list_alter_alter_ne.
Qed.

End InjectEffect.


(** X14: whatever the target, the content and the outcome, [inject]
    removes and renames nothing: every reference that designates an element
    before the call designates one after it, with the same tag, the same
    attributes and at least as many children. *)
Theorem inject_keeps_elements (L : PyLib) (self : ScaledInjectionPoint)
    (content : pyobj) (doc : Element) (r : ref) (e : Element) :
  lookup_at r doc = Some e →
  ∃ e', lookup_at r (injected L self content doc) = Some e'
        ∧ tag e' = tag e ∧ attrib e' = attrib e
        ∧ (length (children e) ≤ length (children e'))%nat.
Proof.
  intros Hr. rewrite injected_eq.
  destruct (target self) as [t|], (parsed L content) as [node|];
    try (exists e; by repeat split).
  by apply alter_at_shape.
Qed.

Lemma inject_keeps_elements_witness :
  lookup_at [0%nat] (root plot_doc) = Some (g "bg" [rect])
  ∧ ∃ e', lookup_at [0%nat]
            (injected sample_lib bg_point (PyStr "<circle/>") (root plot_doc))
          = Some e'
          ∧ tag e' = tag (g "bg" [rect]) ∧ attrib e' = attrib (g "bg" [rect])
          ∧ (length (children (g "bg" [rect])) ≤ length (children e'))%nat.
Proof.
  split; [reflexivity|].
  apply (inject_keeps_elements sample_lib bg_point (PyStr "<circle/>")
           (root plot_doc) [0%nat] (g "bg" [rect])).
  reflexivity.
Defined.

(** X15: [inject] touches the target and its ancestors only: an element
    whose reference does not lead to the target, in particular any child the
    target already had and any other layer, is after the call what it was
    before. *)
Theorem inject_frame (L : PyLib) (self : ScaledInjectionPoint) (t : ref)
    (content : pyobj) (doc : Element) (r : ref) (e : Element) :
  target self = Some t →
  ¬ r `prefix_of` t →
  lookup_at r doc = Some e →
  lookup_at r (injected L self content doc) = Some e.
Proof.
  intros Ht Hpre Hr. rewrite injected_eq, Ht.
  destruct (parsed L content) as [node|]; [|done].
  by apply alter_at_frame.
Qed.

Lemma inject_frame_witness :
  target plot_point = Some [1%nat]
  ∧ ¬ [0; 0]%nat `prefix_of` [1%nat]
  ∧ lookup_at [0; 0]%nat (root plot_doc) = Some rect
  ∧ lookup_at [0; 0]%nat
      (injected sample_lib plot_point (PyStr "<circle/>") (root plot_doc))
    = Some rect.
Proof.
  assert (Hpre : ¬ [0; 0]%nat `prefix_of` [1%nat]).
  { intros H. by apply prefix_cons_inv_1 in H. }
  split; [reflexivity|]. split; [exact Hpre|]. split; [reflexivity|].
  exact (inject_frame sample_lib plot_point [1%nat] (PyStr "<circle/>")
           (root plot_doc) [0; 0]%nat rect eq_refl Hpre eq_refl).
Defined.

(** X16: calls of [inject] on two injection points whose targets do not
    contain one another, such as two layers, can be made in either order:
    the document is the same in the end. *)
Theorem inject_commute (L : PyLib) (s1 s2 : ScaledInjectionPoint)
    (t1 t2 : ref) (c1 c2 : pyobj) (doc : Element) :
  target s1 = Some t1 → target s2 = Some t2 →
  ¬ t1 `prefix_of` t2 → ¬ t2 `prefix_of` t1 →
  injected L s2 c2 (injected L s1 c1 doc)
  = injected L s1 c1 (injected L s2 c2 doc).
Proof.
  intros H1 H2 Hp1 Hp2. rewrite !injected_eq, H1, H2.
  destruct (parsed L c1) as [n1|], (parsed L c2) as [n2|]; try done.
  symmetry. by apply alter_at_commute.
Qed.

Lemma inject_commute_witness :
  target bg_point = Some [0%nat] ∧ target plot_point = Some [1%nat]
  ∧ ¬ [0%nat] `prefix_of` [1%nat] ∧ ¬ [1%nat] `prefix_of` [0%nat]
  ∧ injected sample_lib plot_point (PyStr "<b/>")
      (injected sample_lib bg_point (PyStr "<a/>") (root plot_doc))
    = injected sample_lib bg_point (PyStr "<a/>")
        (injected sample_lib plot_point (PyStr "<b/>") (root plot_doc)).
Proof.
  assert (Hp1 : ¬ [0%nat] `prefix_of` [1%nat]).
  { intros H. by apply prefix_cons_inv_1 in H. }
  assert (Hp2 : ¬ [1%nat] `prefix_of` [0%nat]).
  { intros H. by apply prefix_cons_inv_1 in H. }
  split; [reflexivity|]. split; [reflexivity|].
  split; [exact Hp1|]. split; [exact Hp2|].
  exact (inject_commute sample_lib bg_point plot_point [0%nat] [1%nat]
           (PyStr "<a/>") (PyStr "<b/>") (root plot_doc)
           eq_refl eq_refl Hp1 Hp2).
Defined.

(** X17: two injection points with the same target share its child list:
    whatever their transforms, calls on one and then on the other append to
    the same element, in call order. *)
Theorem inject_shared_target (L : PyLib) (s1 s2 : ScaledInjectionPoint)
    (t : ref) (c1 c2 : pyobj) (doc e : Element) :
  target s1 = Some t → target s2 = Some t →
  lookup_at t doc = Some e →
  ∃ e', lookup_at t (injected L s2 c2 (injected L s1 c1 doc)) = Some e'
        ∧ children e' = children e ++ omap (parsed L) [c1; c2].
Proof.
  intros H1 H2 He. unfold injected.
  pose proof (inject_target L s1 t c1 doc e H1 He) as Hstep.
  pose proof (inject_target L s2 t c2 _ _ H2 Hstep) as Hstep2.
  eexists. split; [exact Hstep2|].
  simpl. destruct (parsed L c1), (parsed L c2); simpl;
    rewrite <- ?app_assoc, ?app_nil_r; done.
Qed.

Lemma inject_shared_target_witness :
  target bg_point = Some [0%nat]
  ∧ target {| trafo := plot_trafo; target := Some [0%nat] |} = Some [0%nat]
  ∧ lookup_at [0%nat] (root plot_doc) = Some (g "bg" [rect])
  ∧ ∃ e', lookup_at [0%nat]
            (injected sample_lib
               {| trafo := plot_trafo; target := Some [0%nat] |}
               (PyStr "<b/>")
               (injected sample_lib bg_point (PyStr "<a/>") (root plot_doc)))
          = Some e'
          ∧ children e'
            = children (g "bg" [rect])
              ++ omap (parsed sample_lib) [PyStr "<a/>"; PyStr "<b/>"].
Proof.
  do 3 (split; [reflexivity|]).
  exact (inject_shared_target sample_lib bg_point
           {| trafo := plot_trafo; target := Some [0%nat] |} [0%nat]
           (PyStr "<a/>") (PyStr "<b/>") (root plot_doc) (g "bg" [rect])
           eq_refl eq_refl eq_refl).
Defined.

(** ** Lookups after an injection *)

Section AfterInject.
Context (L : PyLib).

Lemma alter_at_tag_attrib node t e :
  tag (alter_at (add_child node) t e) = tag e
  ∧ attrib (alter_at (add_child node) t e) = attrib e.
Proof. by destruct t. Qed.

Lemma injected_root self content doc :
  tag (injected L self content doc) = tag doc
  ∧ attrib (injected L self content doc) = attrib doc.
Proof.
  rewrite injected_eq.
  destruct (target self) as [t|], (parsed L content) as [node|]; try done.
  apply alter_at_tag_attrib.
Qed.

Lemma holds_attrib p e e' : attrib e = attrib e' → holds p e = holds p e'.
Proof. intros H. destruct p; unfold holds, get; by rewrite H. Qed.

Lemma select_alter qtag p f j l : ∀ i,
  (∀ e, tag (f e) = tag e ∧ attrib (f e) = attrib e) →
  select qtag p i (alter f j l) = select qtag p i l.
Proof.
  intros i Hf. revert i j.
  induction l as [|c l IH]; intros i [|j]; simpl; try done.
  - destruct (Hf c) as [Ht Ha]. by rewrite Ht, (holds_attrib p _ c Ha).
  - change (list_alter f j l) with (alter f j l). by rewrite IH.
Qed.

Lemma getLayer_select (self : ExistingDoc) id :
  quote_free id = true →
  getLayer L self id
  = Ret (head (select (svg_tag "g") (AttrEq "id" id) 0
                 (children (root self)))).
Proof.
  intros Hq. unfold getLayer.
  change (LOAD_GLOBAL "ExistingDoc")
    with (Ret (PyClass "ExistingDoc" ExistingDoc_attrs)).
  change (Ret (PyClass "ExistingDoc" ExistingDoc_attrs)
            ≫= (λ cls, getattr cls "_NS"
                  ≫= ET_find L (root self) ("svg:g[@id='" +:+ id +:+ "']")))
    with (ET_find L (root self) ("svg:g[@id='" +:+ id +:+ "']")
            (PyDict [("svg", svg_uri)])).
  unfold ET_find, ET_iterfind.
  rewrite parse_path_getLayer by done. reflexivity.
Qed.

Lemma getLayer_Some (self : ExistingDoc) id r :
  quote_free id = true →
  getLayer L self id = Ret (Some r) →
  ∃ i e, r = [i] ∧ children (root self) !! i = Some e ∧ is_layer id e.
Proof.
  intros Hq. rewrite getLayer_select by done. intros [= Hr].
  pose proof (select_head (svg_tag "g") (AttrEq "id" id)
                (children (root self)) 0) as H.
  rewrite Hr in H. destruct H as (j & e & -> & Hj & He & _).
  exists j, e. split; [done|]. split; [done|]. by apply holds_AttrEq_id.
Qed.

Lemma getLayer_injected self t content (d : ExistingDoc) id :
  quote_free id = true → target self = Some t → t ≠ [] →
  getLayer L {| root := injected L self content (root d) |} id
  = getLayer L d id.
Proof.
  intros Hq Ht Hne. rewrite !getLayer_select by done. simpl.
  rewrite injected_eq, Ht.
  destruct (parsed L content) as [node|]; [|done].
  destruct t as [|j t]; [done|]. simpl.
  rewrite select_alter; [done|]. intros e. apply alter_at_tag_attrib.
Qed.

Lemma viewBox_injected self content (d : ExistingDoc) :
  viewBox L {| root := injected L self content (root d) |} = viewBox L d.
Proof.
  unfold viewBox, get. simpl.
  destruct (injected_root self content (root d)) as [_ ->]. done.
Qed.

Lemma getLayerInjector_target (self : SVGDocInScale) id hrange vrange ip :
  getLayerInjector L self id hrange vrange = Ret ip →
  getLayer L self id = Ret (target ip).
Proof.
  unfold getLayerInjector.
  destruct (getLayer L self id) as [layer|]; simpl; [|done].
  destruct (viewBox L self) as [box|]; simpl; [|done].
  intros H. apply ScaledInjectionPoint_init_target in H. by rewrite H.
Qed.

End AfterInject.

(** X18: [inject] never changes the viewport box the document reports:
    whatever the target, the content and the outcome of the call, [viewBox]
    gives after the call what it gave before. *)
Theorem viewBox_after_inject (L : PyLib) (self : ScaledInjectionPoint)
    (content : pyobj) (d : ExistingDoc) :
  viewBox L {| root := injected L self content (root d) |} = viewBox L d
  ∧ tag (injected L self content (root d)) = tag (root d)
  ∧ attrib (injected L self content (root d)) = attrib (root d).
Proof.
  split; [apply viewBox_injected | apply injected_root].
Qed.

(** X19: a call of [inject] on a target other than the root changes no
    lookup: for an identifier without a quote, [getLayer] and
    [getLayerInjector] give after the call what they gave before, so that
    injection points obtained earlier stay the ones of their layers. *)
Theorem lookups_after_inject (L : PyLib) (self : ScaledInjectionPoint)
    (t : ref) (content : pyobj) (d : SVGDocInScale) (id : string)
    (hrange vrange : Qc * Qc) :
  quote_free id = true → target self = Some t → t ≠ [] →
  getLayer L {| root := injected L self content (root d) |} id
  = getLayer L d id
  ∧ getLayerInjector L
      {| doc := {| root := injected L self content (root d) |};
         _deltaFnHV := _deltaFnHV d |} id hrange vrange
    = getLayerInjector L d id hrange vrange.
Proof.
  intros Hq Ht Hne.
  pose proof (getLayer_injected L self t content d id Hq Ht Hne) as Hl.
  split; [exact Hl|].
  unfold getLayerInjector. simpl. by rewrite Hl, viewBox_injected.
Qed.

Lemma lookups_after_inject_witness :
  quote_free "bg" = true ∧ target plot_point = Some [1%nat]
  ∧ [1%nat] ≠ []
  ∧ getLayer sample_lib
      {| root := injected sample_lib plot_point (PyStr "<circle/>")
                   (root plot_scaled) |} "bg"
    = getLayer sample_lib plot_scaled "bg".
Proof.
  do 3 (split; [done|]).
  apply (lookups_after_inject sample_lib plot_point [1%nat]
           (PyStr "<circle/>") plot_scaled "bg"
           (Qc_of_Z 0, Qc_of_Z 10) (Qc_of_Z 0, Qc_of_Z 5));
    done.
Defined.

(** ** The injector of a layer, in general *)

Section Injector.
Context (L : PyLib).



End Injector.



(** X21: what is injected through the injector of a layer is seen through
    the document: for an identifier without a quote, when
    [getLayerInjector] returned an injection point with a target and
    [ET.fromstring] parses the content, the target is a child of the root
    that is a group with that id, after the call it is that group with the
    parsed node appended, and [getLayer] still answers the same reference
    for the id. *)
Theorem inject_through_injector (L : PyLib) (self : SVGDocInScale)
    (id : string) (hrange vrange : Qc * Qc) (ip : ScaledInjectionPoint)
    (r : ref) (content : pyobj) (node : Element) :
  quote_free id = true →
  getLayerInjector L self id hrange vrange = Ret ip →
  target ip = Some r →
  isinstance_Element content = false →
  ET_fromstring L content = Ret node →
  inject L ip content (root self)
  = (Ret (), injected L ip content (root self))
  ∧ getLayer L {| root := injected L ip content (root self) |} id
    = Ret (Some r)
  ∧ ∃ i e, r = [i] ∧ lookup_at r (root self) = Some e ∧ is_layer id e
      ∧ lookup_at r (injected L ip content (root self))
        = Some (add_child node e)
      ∧ is_layer id (add_child node e).
Proof.
  intros Hq Hip Hr Hc Hn.
  pose proof (getLayerInjector_target L self id hrange vrange ip Hip) as Hl.
  rewrite Hr in Hl.
  destruct (getLayer_Some L self id r Hq Hl) as (i & e & -> & Hi & He).
  split; [|split].
  - unfold injected. by rewrite (inject_node L ip [i] content node).
  - rewrite (getLayer_injected L ip [i]) by done. exact Hl.
  - exists i, e. split; [done|].
    assert (Hlook : lookup_at [i] (root self) = Some e).
    { simpl. by rewrite Hi. }
    split; [done|]. split; [done|]. split; [|done].
    unfold injected. rewrite (inject_node L ip [i] content node) by done.
    by apply lookup_add_child.
Qed.

Lemma inject_through_injector_witness :
  ∃ ip, getLayerInjector sample_lib plot_scaled "plot"
          (Qc_of_Z 0, Qc_of_Z 10) (Qc_of_Z 0, Qc_of_Z 5) = Ret ip
        ∧ target ip = Some [1%nat]
        ∧ getLayer sample_lib
            {| root := injected sample_lib ip (PyStr "<circle/>")
                         (root plot_scaled) |} "plot"
          = Ret (Some [1%nat]).
Proof.
  eexists. split; [reflexivity|]. split; [reflexivity|].
  eapply (inject_through_injector sample_lib plot_scaled "plot"
            (Qc_of_Z 0, Qc_of_Z 10) (Qc_of_Z 0, Qc_of_Z 5) _ [1%nat]
            (PyStr "<circle/>") circle); reflexivity.
Defined.
